(** * Audit core of the receivables application: a shallow embedding

    The embedded program is the logic of the single-page application:
    [checkCoaCompliance], [calculateAllowance], [parseCSVLine],
    [parseCSVData] and the upload handler [handleFileUpload], together
    with the pieces of the JavaScript runtime they call.

    Part I is the embedding, function by function. Part II names the
    notions the specification speaks of and holds the sample data.
    Part III states and proves the properties.

    Conventions of the embedding.
    - A JavaScript [number] is an IEEE 754 binary64 value: Rocq's primitive
      [float], with the same rounding, NaN and signed zeros. A counter
      that only ever grows by one is a [nat].
    - A JavaScript string is a [string]; code units are restricted to the
      range 0..255, which covers every character the program tests for.
    - An array that the source mutates in place is a [list] threaded
      through the loop; the object built for a CSV row is the [gmap] of
      its own fields, from field name to value. Assigning to the name
      [__proto__] creates no field, as on an object created as [{}].
    - What the host decides (date formats outside the ISO date-only form,
      [JSON.parse]) is a parameter of class [DateHost] or [JsonHost]: every
      result holds for any host.
    - Apart from [JSON.parse], whose exception the handler catches, no
      operation of the embedded functions can throw, so they are plain
      total functions, without an error type. *)

From Stdlib Require Import ZArith Lia Floats Ascii String.
From stdpp Require Import gmap strings list fin_maps.

Set Warnings "-inexact-float".

Local Open Scope string_scope.
Local Open Scope list_scope.
Local Open Scope Z_scope.

(* ===================================================================== *)
(** * Part I. The embedding                                              *)
(* ===================================================================== *)

(** ** The JavaScript runtime *)

Module JS.

(** *** Numbers *)

Abbreviation number := float (only parsing).

(** The double nearest to an integer (round to nearest, ties to even). *)
Definition of_Z (z : Z) : number := SF2Prim (binary_normalize prec emax z 0 false).

(** The double nearest to [p / q] for positive integers [p] and [q]. *)
Definition of_ratio (p q : positive) : number :=
  SF2Prim (SFdiv prec emax (S754_finite false p 0) (S754_finite false q 0)).

(** [ToBoolean] on a number: NaN, [+0] and [-0] are falsy. *)
Definition truthy (x : number) : bool := negb (is_nan x || is_zero x).

(** [x || 0] for a number [x]. *)
Definition or_zero (x : number) : number := if truthy x then x else 0%float.

(** [Math.ceil]: NaN, the infinities, the zeros and every double with a
    non-negative exponent are integers already; otherwise the magnitude is
    below 2^53 and the rounded-up integer is exact. A result in (-1, 0)
    is [-0]. *)
Definition Math_ceil (x : number) : number :=
  match Prim2SF x with
  | S754_finite s m e =>
      if (0 <=? e)%Z then x
      else
        let q := (Z.pos m / 2 ^ (- e))%Z in
        let r := (Z.pos m mod 2 ^ (- e))%Z in
        if s then (- of_Z q)%float
        else of_Z (if (r =? 0)%Z then q else (q + 1)%Z)
  | _ => x
  end.

(** *** Characters and strings *)

Definition dquote : ascii := "034"%char.
Definition LF : ascii := "010"%char.
Definition CR : ascii := "013"%char.

Definition ascii_eqb (a b : ascii) : bool := Ascii.eqb a b.

(** WhiteSpace and LineTerminator code units below 256: TAB, LF, VT, FF,
    CR, SP and NBSP. *)
Definition is_white_space (c : ascii) : bool :=
  let n := N_of_ascii c in
  ((9 <=? n) && (n <=? 13) || (n =? 32) || (n =? 160))%N.

Fixpoint trimStart (s : string) : string :=
  match s with
  | String c r => if is_white_space c then trimStart r else s
  | EmptyString => EmptyString
  end.

Fixpoint trimEnd (s : string) : string :=
  match s with
  | String c r =>
      match trimEnd r with
      | EmptyString => if is_white_space c then EmptyString else String c EmptyString
      | r' => String c r'
      end
  | EmptyString => EmptyString
  end.

(** [s.trim()] *)
Definition trim (s : string) : string := trimEnd (trimStart s).

(** [String.prototype.toLowerCase] on one code unit: A-Z and the Latin-1
    capitals (all of 192..222 but the multiplication sign 215). *)
Definition lower_char (c : ascii) : ascii :=
  let n := N_of_ascii c in
  if ((65 <=? n) && (n <=? 90) || (192 <=? n) && (n <=? 222) && negb (n =? 215))%N
  then ascii_of_N (n + 32) else c.

Fixpoint toLowerCase (s : string) : string :=
  match s with
  | String c r => String (lower_char c) (toLowerCase r)
  | EmptyString => EmptyString
  end.

(** Prepend a character to the first piece of a split. *)
Definition cons_first (c : ascii) (pieces : list string) : list string :=
  match pieces with
  | p :: ps => String c p :: ps
  | [] => [String c EmptyString]
  end.

(** [s.split(sep)] for a one-character separator. *)
Fixpoint split (sep : ascii) (s : string) : list string :=
  match s with
  | String c r => if ascii_eqb c sep then EmptyString :: split sep r
                  else cons_first c (split sep r)
  | EmptyString => [EmptyString]
  end.

(** [s.split(/\r?\n/)]: a line ends at LF or at CR LF; a lone CR is an
    ordinary character. *)
Fixpoint split_lines (s : string) : list string :=
  match s with
  | String c r =>
      if ascii_eqb c LF then EmptyString :: split_lines r
      else
        match r with
        | String c' r' =>
            if ascii_eqb c CR && ascii_eqb c' LF then EmptyString :: split_lines r'
            else cons_first c (split_lines r)
        | EmptyString => [String c EmptyString]
        end
  | EmptyString => [EmptyString]
  end.

(** Drop the last character when it is a double quote. *)
Fixpoint strip_last_quote (s : string) : string :=
  match s with
  | String c EmptyString => if ascii_eqb c dquote then EmptyString else s
  | String c r => String c (strip_last_quote r)
  | EmptyString => EmptyString
  end.

(** [s.replace(/^"|"$/g, '')]: one double quote is removed at the start
    and one at the end, when present. *)
Definition unquote (s : string) : string :=
  match s with
  | String c r => if ascii_eqb c dquote then strip_last_quote r else strip_last_quote s
  | EmptyString => EmptyString
  end.

(** [s.endsWith(suffix)] *)
Definition endsWith (s suffix : string) : bool :=
  let n := String.length s in
  let k := String.length suffix in
  (k <=? n)%nat && String.eqb (substring (n - k) k s) suffix.

(** [xs.includes(x)] on an array of strings. *)
Definition includes (xs : list string) (x : string) : bool :=
  existsb (String.eqb x) xs.

(** [xs.join(sep)] *)
Fixpoint join (sep : string) (xs : list string) : string :=
  match xs with
  | [] => EmptyString
  | [x] => x
  | x :: rest => x ++ sep ++ join sep rest
  end.

(** *** [parseFloat] *)

Definition is_digit (c : ascii) : bool :=
  let n := N_of_ascii c in ((48 <=? n) && (n <=? 57))%N.

Definition digit_val (c : ascii) : Z := (Z.of_N (N_of_ascii c) - 48)%Z.

(** The longest run of decimal digits at the start of [s]: their value
    appended to [acc], how many there were, and what follows them. *)
Fixpoint read_digits (s : string) (acc : Z) (n : nat) : Z * nat * string :=
  match s with
  | String c r =>
      if is_digit c then read_digits r (10 * acc + digit_val c)%Z (S n) else (acc, n, s)
  | EmptyString => (acc, n, s)
  end.

(** An optional sign; [true] stands for a minus. *)
Definition read_sign (s : string) : bool * string :=
  match s with
  | String c r =>
      if ascii_eqb c "-" then (true, r)
      else if ascii_eqb c "+" then (false, r)
      else (false, s)
  | EmptyString => (false, s)
  end.

(** ExponentPart: [e] or [E], an optional sign and at least one digit;
    anything else contributes no exponent. *)
Definition read_exponent (s : string) : Z :=
  match s with
  | String c r =>
      if ascii_eqb c "e" || ascii_eqb c "E" then
        let '(neg, r1) := read_sign r in
        let '(v, n, _) := read_digits r1 0%Z 0%nat in
        if (n =? 0)%nat then 0%Z else if neg then (- v)%Z else v
      else 0%Z
  | EmptyString => 0%Z
  end.

(** The double nearest to [(-1)^neg * m * 10^e]. *)
Definition decimal_value (neg : bool) (m e : Z) : number :=
  let mag :=
    if (m =? 0)%Z then 0%float
    else if (0 <=? e)%Z then of_Z (m * 10 ^ e)
    else of_ratio (Z.to_pos m) (Z.to_pos (10 ^ (- e))) in
  if neg then (- mag)%float else mag.

(** [parseFloat(s)]: leading white space is skipped, then the longest
    prefix that is a StrDecimalLiteral is converted; NaN when there is
    none. *)
Definition parseFloat (s : string) : number :=
  let '(neg, s2) := read_sign (trimStart s) in
  if String.prefix "Infinity" s2 then (if neg then neg_infinity else infinity)
  else
    let '(i, ni, s3) := read_digits s2 0%Z 0%nat in
    match s3 with
    | String c s4 =>
        if ascii_eqb c "." then
          let '(m, nf, s5) := read_digits s4 i 0%nat in
          if (ni + nf =? 0)%nat then nan
          else decimal_value neg m (read_exponent s5 - Z.of_nat nf)
        else if (ni =? 0)%nat then nan
        else decimal_value neg i (read_exponent s3)
    | EmptyString => if (ni =? 0)%nat then nan else decimal_value neg i 0
    end.

(** *** Dates *)

Definition msPerDay : Z := 86400000.

(** ECMA-262 Day Number of the first day of year [y]. *)
Definition DayFromYear (y : Z) : Z :=
  365 * (y - 1970) + (y - 1969) / 4 - (y - 1901) / 100 + (y - 1601) / 400.

Definition InLeapYear (y : Z) : bool :=
  ((y mod 4 =? 0) && negb (y mod 100 =? 0)) || (y mod 400 =? 0).

Definition DaysInMonth (y m : Z) : Z :=
  if m =? 2 then (if InLeapYear y then 29 else 28)
  else if (m =? 4) || (m =? 6) || (m =? 9) || (m =? 11) then 30
  else 31.

(** Days of year [y] that precede its month [m] (1 = January). *)
Definition DaysBeforeMonth (y m : Z) : Z :=
  nth (Z.to_nat (m - 1)) [0; 31; 59; 90; 120; 151; 181; 212; 243; 273; 304; 334] 0
  + (if InLeapYear y && (2 <? m) then 1 else 0).

(** The time value of midnight UTC on a calendar day. *)
Definition MakeDate (y m d : Z) : Z :=
  (DayFromYear y + DaysBeforeMonth y m + (d - 1)) * msPerDay.

(** The date-only ISO form [YYYY-MM-DD], the one form whose time value
    ECMA-262 fixes without the local time zone: a month in 1..12 and a
    day of that month, else no match. *)
Definition parse_iso_date (s : string) : option Z :=
  match list_ascii_of_string s with
  | [y1; y2; y3; y4; h1; m1; m2; h2; d1; d2] =>
      if forallb is_digit [y1; y2; y3; y4; m1; m2; d1; d2]
         && ascii_eqb h1 "-" && ascii_eqb h2 "-" then
        let y := 1000 * digit_val y1 + 100 * digit_val y2 + 10 * digit_val y3 + digit_val y4 in
        let m := 10 * digit_val m1 + digit_val m2 in
        let d := 10 * digit_val d1 + digit_val d2 in
        if (1 <=? m) && (m <=? 12) && (1 <=? d) && (d <=? DaysInMonth y m)
        then Some (MakeDate y m d) else None
      else None
  | _ => None
  end.

(** A Date object is its time value: an integral number of milliseconds,
    or NaN for an Invalid Date. *)
Definition Date := number.

(** What the host makes of a string that is not a date-only ISO date
    (other ISO forms read in local time, legacy formats, or NaN). *)
Class DateHost := host_Date_parse : string -> number.

(** [new Date(s)] *)
Definition new_Date `{DateHost} (s : string) : Date :=
  match parse_iso_date s with
  | Some t => of_Z t
  | None => host_Date_parse s
  end.

(** [d.getTime()] *)
Definition getTime (d : Date) : number := d.

(** A host that knows no format beyond the ISO date-only one. *)
Definition strict_host : DateHost := fun _ => nan.

End JS.

Import JS.

(** ** The record types of the application *)

Inductive AccountType := Asset | Liability | Equity | Revenue | Expense.

Record Account := {
  account_id : string;
  account_name : string;
  account_type : AccountType
}.

Inductive InvoiceStatus := Open | Paid | Void.

Record Invoice := {
  invoice_id : string;
  customer_id : string;
  invoice_date : string;
  due_date : string;
  original_amount : number;
  amount_paid : number;
  balance_due : number;
  status : InvoiceStatus
}.

Record Transaction := {
  transaction_id : string;
  transaction_date : string;
  debit_account_id : string;
  credit_account_id : string;
  amount : number;
  reference_invoice_id : option string;
  description : string
}.

(** The five values of [AgingBucket.bucket]. *)
Inductive BucketLabel := Current | Days_1_30 | Days_31_60 | Days_61_90 | Days_90_plus.

Definition label_text (l : BucketLabel) : string :=
  match l with
  | Current => "Current"
  | Days_1_30 => "1-30 Days"
  | Days_31_60 => "31-60 Days"
  | Days_61_90 => "61-90 Days"
  | Days_90_plus => "90+ Days"
  end.

(** [invoice_count] only ever counts invoices one by one, so it is kept
    as a natural number. *)
Record AgingBucket := {
  bucket : BucketLabel;
  total_amount : number;
  invoice_count : nat;
  allowance_rate : number;
  estimated_allowance : number
}.

Inductive IssueType := Invalid_Debit_Account | Invalid_Credit_Account | Data_Integrity.

Inductive Severity := High | Medium | Low.

(** The fields [transaction_id] and [description] of a ComplianceIssue
    carry the prefix [issue_], as a Transaction has fields of those names. *)
Record ComplianceIssue := {
  issue_transaction_id : string;
  issue_type : IssueType;
  issue_description : string;
  severity : Severity
}.

Inductive ViewState := DASHBOARD | COMPLIANCE | AGING | AI_RISK | UPLOAD.

(** ** Compliance check *)

Definition debit_issue (txn : Transaction) : ComplianceIssue :=
  {| issue_transaction_id := transaction_id txn;
     issue_type := Invalid_Debit_Account;
     issue_description := "Debit Account ID " ++ debit_account_id txn ++ " not found in COA.";
     severity := High |}.

Definition credit_issue (txn : Transaction) : ComplianceIssue :=
  {| issue_transaction_id := transaction_id txn;
     issue_type := Invalid_Credit_Account;
     issue_description := "Credit Account ID " ++ credit_account_id txn ++ " not found in COA.";
     severity := High |}.

(** The body of [transactions.forEach]: [issues] is the array pushed to. *)
Definition check_txn (accountIds : gset string) (issues : list ComplianceIssue)
    (txn : Transaction) : list ComplianceIssue :=
  let issues :=
    if negb (bool_decide (debit_account_id txn ∈ accountIds))
    then issues ++ [debit_issue txn] else issues in
  let issues :=
    if negb (bool_decide (credit_account_id txn ∈ accountIds))
    then issues ++ [credit_issue txn] else issues in
  issues.

Definition checkCoaCompliance (transactions : list Transaction) (coa : list Account)
    : list ComplianceIssue :=
  let accountIds : gset string := list_to_set (account_id <$> coa) in
  fold_left (check_txn accountIds) transactions [].

(** ** Aging and allowance *)

Definition new_bucket (l : BucketLabel) (rate : number) : AgingBucket :=
  {| bucket := l; total_amount := 0; invoice_count := 0;
     allowance_rate := rate; estimated_allowance := 0 |}.

Definition initial_buckets : list AgingBucket :=
  [ new_bucket Current 0.01;
    new_bucket Days_1_30 0.05;
    new_bucket Days_31_60 0.10;
    new_bucket Days_61_90 0.25;
    new_bucket Days_90_plus 0.50 ].

(** The chain of comparisons on [diffDays]; every comparison with NaN is
    false, so an invalid date ends in the last branch. *)
Definition bucketIndex (diffDays : number) : nat :=
  if (diffDays <=? 0)%float then 0%nat
  else if (diffDays <=? 30)%float then 1%nat
  else if (diffDays <=? 60)%float then 2%nat
  else if (diffDays <=? 90)%float then 3%nat
  else 4%nat.

(** [b.total_amount += x; b.invoice_count += 1] *)
Definition accumulate (x : number) (b : AgingBucket) : AgingBucket :=
  {| bucket := bucket b;
     total_amount := (total_amount b + x)%float;
     invoice_count := S (invoice_count b);
     allowance_rate := allowance_rate b;
     estimated_allowance := estimated_allowance b |}.

(** [b.estimated_allowance = b.total_amount * b.allowance_rate] *)
Definition set_allowance (b : AgingBucket) : AgingBucket :=
  {| bucket := bucket b;
     total_amount := total_amount b;
     invoice_count := invoice_count b;
     allowance_rate := allowance_rate b;
     estimated_allowance := (total_amount b * allowance_rate b)%float |}.

Section Aging.

Context `{DateHost}.

(** [Math.ceil(diffTime / (1000 * 60 * 60 * 24))] for one invoice. *)
Definition diffDays (REF_DATE : Date) (inv : Invoice) : number :=
  let dueDate := new_Date (due_date inv) in
  let diffTime := (getTime REF_DATE - getTime dueDate)%float in
  Math_ceil (diffTime / (1000 * 60 * 60 * 24))%float.

(** The body of [invoices.forEach]. *)
Definition add_invoice (REF_DATE : Date) (buckets : list AgingBucket) (inv : Invoice)
    : list AgingBucket :=
  if (balance_due inv <=? 0)%float then buckets
  else alter (accumulate (balance_due inv)) (bucketIndex (diffDays REF_DATE inv)) buckets.

Definition calculateAllowance (invoices : list Invoice) (referenceDateStr : string)
    : list AgingBucket :=
  let REF_DATE := new_Date referenceDateStr in
  let buckets := fold_left (add_invoice REF_DATE) invoices initial_buckets in
  set_allowance <$> buckets.

End Aging.

(** The default of the parameter [referenceDateStr]. *)
Definition default_referenceDateStr : string := "2024-07-01".

(** ** CSV parser *)

(** The scan of [parseCSVLine]: [values], [inQuote] and [currentValue]
    are the three variables of the loop. *)
Fixpoint parseCSVLine_loop (line : string) (values : list string) (inQuote : bool)
    (currentValue : string) : list string :=
  match line with
  | String char rest =>
      if ascii_eqb char dquote then
        parseCSVLine_loop rest values (negb inQuote) currentValue
      else if ascii_eqb char "," && negb inQuote then
        parseCSVLine_loop rest (values ++ [trim currentValue]) inQuote EmptyString
      else
        parseCSVLine_loop rest values inQuote (currentValue ++ String char EmptyString)
  | EmptyString => values ++ [trim currentValue]
  end.

Definition parseCSVLine (line : string) : list string :=
  parseCSVLine_loop line [] false EmptyString.

(** What a field of a parsed row can hold. *)
Inductive Value :=
  | Undefined
  | Str (s : string)
  | Num (x : number)
  | Arr (xs : list number).

(** The object [obj] built for one data line. *)
Abbreviation Row := (gmap string Value).

Record ParsedCSV := { headers : list string; data : list Row }.

Definition numeric_headers : list string :=
  ["original_amount"; "amount_paid"; "balance_due"; "amount"].

(** [ToString] of a value that is a string or [undefined]. *)
Definition ToString (val : option string) : string :=
  match val with Some s => s | None => "undefined" end.

(** [parseFloat(n) || 0] *)
Definition parseFloat_or_zero (n : string) : number := or_zero (parseFloat n).

(** The value stored under header [h] for the cell [val]
    ([undefined] when the line has no such cell). *)
Definition coerce (h : string) (val : option string) : Value :=
  if includes numeric_headers h then
    Num (or_zero (parseFloat (ToString val)))
  else if String.eqb h "risk_score_history" then
    Arr (match val with
         | Some (String _ _ as s) => parseFloat_or_zero <$> split ";" s
         | _ => []
         end)
  else
    match val with
    | Some s => Str s
    | None => Undefined
    end.

(** [obj[h] = v] on an object created as [{}]: the field [h] is created
    or overwritten, unless [h] is [__proto__]. That name reaches the
    accessor inherited from [Object.prototype], whose setter ignores a
    string, a number and [undefined] and takes an array for the new
    prototype: in no case does the object get a field of that name. *)
Definition set_property (obj : Row) (h : string) (v : Value) : Row :=
  if String.eqb h "__proto__" then obj else <[h := v]> obj.

(** The body of [headers.forEach((h, i) => ...)]. *)
Definition set_field (values : list string) (obj : Row) (ih : nat * string) : Row :=
  let '(i, h) := ih in
  let val := unquote <$> values !! i in
  set_property obj h (coerce h val).

(** The callback of [lines.slice(1).map]. *)
Definition parse_row (headers : list string) (line : string) : Row :=
  let values := parseCSVLine line in
  fold_left (set_field values) (imap pair headers) ∅.

Definition parse_header (h : string) : string :=
  toLowerCase (unquote (trim h)).

Definition parseCSVData (content : string) : ParsedCSV :=
  let lines := filter (λ l, trim l ≠ EmptyString) (split_lines content) in
  if (length lines <? 2)%nat then {| headers := []; data := [] |}
  else
    match lines with
    | line0 :: rest =>
        let headers := parse_header <$> split "," line0 in
        {| headers := headers; data := parse_row headers <$> rest |}
    | [] => {| headers := []; data := [] |}
    end.

(** ** Upload handler and application state *)

Record File := { name : string; text : string }.

(** The four keys the handler reads from a parsed JSON document; a key
    is [None] when it is missing or falsy. *)
Record JsonDoc := {
  json_transactions : option (list Row);
  json_invoices : option (list Row);
  json_customers : option (list Row);
  json_coa : option (list Row)
}.

(** The four [useState] cells holding the data, and the current view. *)
Record AppState := {
  transactions : list Row;
  invoices : list Row;
  customers : list Row;
  coa : list Row;
  currentView : ViewState
}.

Definition setTransactions (d : list Row) (st : AppState) : AppState :=
  {| transactions := d; invoices := invoices st; customers := customers st;
     coa := coa st; currentView := currentView st |}.

Definition setInvoices (d : list Row) (st : AppState) : AppState :=
  {| transactions := transactions st; invoices := d; customers := customers st;
     coa := coa st; currentView := currentView st |}.

Definition setCustomers (d : list Row) (st : AppState) : AppState :=
  {| transactions := transactions st; invoices := invoices st; customers := d;
     coa := coa st; currentView := currentView st |}.

Definition setCoa (d : list Row) (st : AppState) : AppState :=
  {| transactions := transactions st; invoices := invoices st; customers := customers st;
     coa := d; currentView := currentView st |}.

Definition setCurrentView (v : ViewState) (st : AppState) : AppState :=
  {| transactions := transactions st; invoices := invoices st; customers := customers st;
     coa := coa st; currentView := v |}.

(** The dataset a CSV file is taken for. *)
Inductive CsvKind := CsvCoa | CsvCustomers | CsvInvoices | CsvTransactions.

(** The chain of tests on the header names ("auto-detect type based on
    headers"): the branch that is taken, if any. *)
Definition detect (headers : list string) : option CsvKind :=
  if includes headers "account_id" && includes headers "account_type" then Some CsvCoa
  else if includes headers "customer_id" && includes headers "risk_score_history" then Some CsvCustomers
  else if includes headers "invoice_id" && includes headers "balance_due" then Some CsvInvoices
  else if includes headers "transaction_id" && includes headers "debit_account_id" then Some CsvTransactions
  else None.

(** The state of the loop over the files: the data and [loadedInfo]. *)
Definition Progress : Type := AppState * list string.

Definition load_csv (content : string) (p : Progress) : Progress :=
  let '(st, loadedInfo) := p in
  let parsed := parseCSVData content in
  match detect (headers parsed) with
  | Some CsvCoa => (setCoa (data parsed) st, loadedInfo ++ ["COA (CSV)"])
  | Some CsvCustomers => (setCustomers (data parsed) st, loadedInfo ++ ["Customers (CSV)"])
  | Some CsvInvoices => (setInvoices (data parsed) st, loadedInfo ++ ["Invoices (CSV)"])
  | Some CsvTransactions => (setTransactions (data parsed) st, loadedInfo ++ ["Transactions (CSV)"])
  | None => p
  end.

(** One [if (json.key) { setKey(json.key); loadedInfo.push(tag); }]. *)
Definition load_key (key : option (list Row)) (set : list Row -> AppState -> AppState)
    (tag : string) (p : Progress) : Progress :=
  match key with
  | Some d => (set d (fst p), snd p ++ [tag])
  | None => p
  end.

Definition load_json (json : JsonDoc) (p : Progress) : Progress :=
  let p := load_key (json_transactions json) setTransactions "Transactions (JSON)" p in
  let p := load_key (json_invoices json) setInvoices "Invoices (JSON)" p in
  let p := load_key (json_customers json) setCustomers "Customers (JSON)" p in
  let p := load_key (json_coa json) setCoa "COA (JSON)" p in
  p.

Definition nothing_recognized : string :=
  "No recognized data found. Please check CSV headers.".

(** [JSON.parse] followed by the reads of the four keys; [None] when an
    exception reaches the [catch]. *)
Class JsonHost := JSON_parse : string -> option JsonDoc.

Section Upload.

Context `{JsonHost}.

(** The body of the loop over [files]. *)
Definition process_file (p : Progress) (file : File) : Progress :=
  if endsWith (name file) ".json" then
    match JSON_parse (text file) with
    | Some json => load_json json p
    | None => p
    end
  else if endsWith (name file) ".csv" then load_csv (text file) p
  else p.

(** The handler: the new state and the message alerted, if any. *)
Definition handleFileUpload (files : list File) (st : AppState) : AppState * option string :=
  match files with
  | [] => (st, None)
  | _ =>
      let '(st', loadedInfo) := fold_left process_file files (st, []) in
      if (0 <? length loadedInfo)%nat then
        (setCurrentView DASHBOARD st',
         Some ("Successfully loaded: " ++ join ", " loadedInfo)%string)
      else (st', Some nothing_recognized)
  end.

End Upload.

(* ===================================================================== *)
(** * Part II. The vocabulary of the specification                       *)
(* ===================================================================== *)

(** This part names the notions the specification speaks of (they are
    not functions of the source) and holds the inputs the examples run on:
    the sample data of the source and its CSV templates. *)

(** ** Compliance check *)

(** An account id that no account of the chart carries. *)
Definition missing_account (coa : list Account) (id : string) : Prop :=
  id ∉ account_id <$> coa.

(** The issues of one transaction in the words of the specification: one
    for a missing debit account, then one for a missing credit account. *)
Definition spec_txn_issues (coa : list Account) (txn : Transaction) : list ComplianceIssue :=
  (if decide (missing_account coa (debit_account_id txn)) then [debit_issue txn] else [])
  ++ (if decide (missing_account coa (credit_account_id txn)) then [credit_issue txn] else []).

(** ** Aging and allowance *)

(** The sum as the loop accumulates it: from 0, adding from left to
    right. *)
Definition number_sum (xs : list number) : number := fold_left PrimFloat.add xs 0%float.

(** The label and the rate of the bucket at an index. *)
Definition label_at (k : nat) : option BucketLabel := bucket <$> initial_buckets !! k.
Definition rate_at (k : nat) : option number := allowance_rate <$> initial_buckets !! k.

Section AgingVocabulary.

Context `{DateHost}.

(** An invoice the loop does not skip. *)
Definition counted (inv : Invoice) : Prop := (balance_due inv <=? 0)%float = false.

(** The invoice is counted, and in the bucket at index [k]. *)
Definition lands_in (REF_DATE : Date) (k : nat) (inv : Invoice) : Prop :=
  counted inv ∧ bucketIndex (diffDays REF_DATE inv) = k.

#[export] Instance lands_in_dec REF_DATE k inv : Decision (lands_in REF_DATE k inv).
Proof. unfold lands_in, counted. apply _. Defined.

(** The invoices of a list that land in bucket [k], in list order. *)
Definition members (REF_DATE : Date) (k : nat) (invoices : list Invoice) : list Invoice :=
  filter (lands_in REF_DATE k) invoices.

(** The bucket the function returns at index [k], in closed form. *)
Definition spec_bucket (REF_DATE : Date) (invoices : list Invoice) (k : nat)
    (l : BucketLabel) (rate : number) : AgingBucket :=
  let total := number_sum (balance_due <$> members REF_DATE k invoices) in
  {| bucket := l;
     total_amount := total;
     invoice_count := length (members REF_DATE k invoices);
     allowance_rate := rate;
     estimated_allowance := (total * rate)%float |}.

End AgingVocabulary.

(** The thresholds on the age in whole days, in the words of the
    specification, for the bucket at index [k]. *)
Definition spec_bucket_of_age (age : number) (k : nat) : Prop :=
  ((age <=? 0)%float = true → k = 0%nat)
  ∧ ((1 <=? age)%float = true → (age <=? 30)%float = true → k = 1%nat)
  ∧ ((31 <=? age)%float = true → (age <=? 60)%float = true → k = 2%nat)
  ∧ ((61 <=? age)%float = true → (age <=? 90)%float = true → k = 3%nat)
  ∧ ((90 <? age)%float = true → k = 4%nat).

(** ** CSV line parser *)

(** Whether a character occurs in a string. *)
Fixpoint contains (c : ascii) (s : string) : bool :=
  match s with
  | String a r => ascii_eqb a c || contains c r
  | EmptyString => false
  end.

(** A string with every double quote left out. *)
Fixpoint remove_quotes (s : string) : string :=
  match s with
  | String c r => if ascii_eqb c dquote then remove_quotes r else String c (remove_quotes r)
  | EmptyString => EmptyString
  end.

(** The pieces of a line between the commas that stand outside quoted
    spans, in the words of the specification: a double quote toggles the
    quoted mode and stays in its piece. *)
Fixpoint spec_split_fields (line : string) (inQuote : bool) : list string :=
  match line with
  | String c r =>
      if ascii_eqb c dquote then cons_first c (spec_split_fields r (negb inQuote))
      else if ascii_eqb c "," && negb inQuote then EmptyString :: spec_split_fields r inQuote
      else cons_first c (spec_split_fields r inQuote)
  | EmptyString => [EmptyString]
  end.

(** The value of a piece: quotes left out, then trimmed. *)
Definition spec_value (piece : string) : string := trim (remove_quotes piece).

(** The string [s] between double quotes. *)
Definition quoted (s : string) : string := String dquote (s ++ String dquote EmptyString).

(** ** Type detection and batches *)

(** The header names include both [a] and [b]. *)
Definition has_both (hs : list string) (a b : string) : Prop := a ∈ hs ∧ b ∈ hs.

(** The four signatures of the specification. *)
Definition sig_accounts (hs : list string) : Prop := has_both hs "account_id" "account_type".
Definition sig_customers (hs : list string) : Prop := has_both hs "customer_id" "risk_score_history".
Definition sig_invoices (hs : list string) : Prop := has_both hs "invoice_id" "balance_due".
Definition sig_transactions (hs : list string) : Prop := has_both hs "transaction_id" "debit_account_id".

(** Every primary set but the one of kind [k] is as before, and so is
    the view. *)
Definition keeps_all_but (k : CsvKind) (st st' : AppState) : Prop :=
  currentView st' = currentView st
  ∧ match k with
    | CsvCoa =>
        transactions st' = transactions st ∧ invoices st' = invoices st
        ∧ customers st' = customers st
    | CsvCustomers =>
        transactions st' = transactions st ∧ invoices st' = invoices st ∧ coa st' = coa st
    | CsvInvoices =>
        transactions st' = transactions st ∧ customers st' = customers st ∧ coa st' = coa st
    | CsvTransactions =>
        invoices st' = invoices st ∧ customers st' = customers st ∧ coa st' = coa st
    end.

(** The entries a file adds to [loadedInfo]. *)
Definition key_tag (key : option (list Row)) (tag : string) : list string :=
  match key with Some _ => [tag] | None => [] end.

Definition json_tags (json : JsonDoc) : list string :=
  key_tag (json_transactions json) "Transactions (JSON)"
  ++ key_tag (json_invoices json) "Invoices (JSON)"
  ++ key_tag (json_customers json) "Customers (JSON)"
  ++ key_tag (json_coa json) "COA (JSON)".

Definition csv_tag (k : CsvKind) : string :=
  match k with
  | CsvCoa => "COA (CSV)"
  | CsvCustomers => "Customers (CSV)"
  | CsvInvoices => "Invoices (CSV)"
  | CsvTransactions => "Transactions (CSV)"
  end.

Definition file_tags `{JsonHost} (file : File) : list string :=
  if endsWith (name file) ".json" then
    match JSON_parse (text file) with
    | Some json => json_tags json
    | None => []
    end
  else if endsWith (name file) ".csv" then
    match detect (headers (parseCSVData (text file))) with
    | Some k => [csv_tag k]
    | None => []
    end
  else [].

(** A file from which some dataset is loaded. *)
Definition recognized `{JsonHost} (file : File) : Prop := file_tags file ≠ [].

(** ** The sample data and the templates *)

(** The invoices of the sample data. *)
Definition INV_1001 : Invoice :=
  {| invoice_id := "INV-1001"; customer_id := "CUST-001"; invoice_date := "2024-05-01";
     due_date := "2024-05-31"; original_amount := 5000; amount_paid := 0;
     balance_due := 5000; status := Open |}.

Definition INV_0900 : Invoice :=
  {| invoice_id := "INV-0900"; customer_id := "CUST-002"; invoice_date := "2024-03-01";
     due_date := "2024-03-31"; original_amount := 12000; amount_paid := 2000;
     balance_due := 10000; status := Open |}.

Definition INV_0850 : Invoice :=
  {| invoice_id := "INV-0850"; customer_id := "CUST-002"; invoice_date := "2023-12-01";
     due_date := "2023-12-31"; original_amount := 8500; amount_paid := 0;
     balance_due := 8500; status := Open |}.

Definition INV_0800 : Invoice :=
  {| invoice_id := "INV-0800"; customer_id := "CUST-003"; invoice_date := "2024-01-15";
     due_date := "2024-02-15"; original_amount := 3000; amount_paid := 3000;
     balance_due := 0; status := Paid |}.

Definition MOCK_INVOICES : list Invoice := [INV_1001; INV_0900; INV_0850; INV_0800].

Definition mock_account (id nm : string) (ty : AccountType) : Account :=
  {| account_id := id; account_name := nm; account_type := ty |}.

Definition MOCK_COA : list Account :=
  [ mock_account "1100" "Cash" Asset;
    mock_account "1200" "Accounts Receivable" Asset;
    mock_account "1300" "Allowance for Doubtful Accounts" Asset;
    mock_account "4000" "Sales Revenue" Revenue;
    mock_account "5000" "Cost of Goods Sold" Expense ].

Definition TXN_001 : Transaction :=
  {| transaction_id := "TXN-001"; transaction_date := "2024-05-01";
     debit_account_id := "1200"; credit_account_id := "4000"; amount := 5000;
     reference_invoice_id := Some "INV-1001"; description := "Credit Sale to Acme" |}.

Definition TXN_002 : Transaction :=
  {| transaction_id := "TXN-002"; transaction_date := "2024-02-10";
     debit_account_id := "1100"; credit_account_id := "1200"; amount := 3000;
     reference_invoice_id := Some "INV-0800"; description := "Payment from Soylent" |}.

Definition TXN_ERR_01 : Transaction :=
  {| transaction_id := "TXN-ERR-01"; transaction_date := "2024-05-02";
     debit_account_id := "9999"; credit_account_id := "4000"; amount := 1500;
     reference_invoice_id := None; description := "Suspicious Adjustment" |}.

Definition TXN_ERR_02 : Transaction :=
  {| transaction_id := "TXN-ERR-02"; transaction_date := "2024-05-03";
     debit_account_id := "1200"; credit_account_id := "4005"; amount := 200;
     reference_invoice_id := None; description := "Misc Revenue unclassified" |}.

Definition MOCK_TRANSACTIONS : list Transaction :=
  [TXN_001; TXN_002; TXN_ERR_01; TXN_ERR_02].

(** The first two lines of the chart-of-accounts template. *)
Definition template_coa : string :=
  "account_id,account_name,account_type" ++ String LF "1100,Cash,Asset".

(** The header row of the chart-of-accounts template, with no data row. *)
Definition header_only : string := "account_id,account_name,account_type".

(** A file that carries both the Accounts and the Customers signature. *)
Definition both_signatures : string :=
  "account_id,account_type,customer_id,risk_score_history"
  ++ String LF "1100,Asset,CUST-001,10;12".

Definition empty_state : AppState :=
  {| transactions := []; invoices := []; customers := []; coa := [];
     currentView := UPLOAD |}.

(** A host whose [JSON.parse] always throws. *)
Definition no_json : JsonHost := fun _ => None.

(* ===================================================================== *)
(** * Part III. Properties                                               *)
(* ===================================================================== *)

(** ** Order on doubles *)

(** The comparisons of the program are read through the specification of
    the primitive floats ([ltb_spec], [leb_spec]); the order facts are
    then proved on the sign, exponent and mantissa. *)

Ltac sf_order :=
  repeat match goal with
  | |- context [Pos.compare_cont Eq ?a ?b] =>
      change (Pos.compare_cont Eq a b) with (Pos.compare a b)
  | H : context [Pos.compare_cont Eq ?a ?b] |- _ =>
      change (Pos.compare_cont Eq a b) with (Pos.compare a b) in H
  end;
  repeat match goal with
  | H : context [Z.compare ?a ?b] |- _ =>
      destruct (Z.compare_spec a b); simpl in H; try discriminate H
  | H : context [Pos.compare ?a ?b] |- _ =>
      destruct (Pos.compare_spec a b); simpl in H; try discriminate H
  | |- context [Z.compare ?a ?b] => destruct (Z.compare_spec a b); simpl
  | |- context [Pos.compare ?a ?b] => destruct (Pos.compare_spec a b); simpl
  end;
  first [ reflexivity | discriminate | lia ].

Lemma SF_lt_le_not_le x y z :
  SFltb x y = true -> SFleb y z = true -> SFleb z x = false.
Proof.
  unfold SFltb, SFleb, SFcompare.
  destruct x as [[]|[]| |[] mx ex], y as [[]|[]| |[] my ey], z as [[]|[]| |[] mz ez];
    simpl; intros Hxy Hyz; try discriminate; try reflexivity; sf_order.
Qed.

Lemma SF_lt_not_le x y : SFltb x y = true -> SFleb y x = false.
Proof.
  unfold SFltb, SFleb, SFcompare.
  destruct x as [[]|[]| |[] mx ex], y as [[]|[]| |[] my ey];
    simpl; intros Hxy; try discriminate; try reflexivity; sf_order.
Qed.

Lemma SF_lt_le x y : SFltb x y = true -> SFleb x y = true.
Proof. unfold SFltb, SFleb. by destruct (SFcompare x y) as [[]|]. Qed.

(** [x < y <= z] excludes [z <= x]. *)
Lemma number_lt_le_not_le (x y z : number) :
  (x <? y)%float = true -> (y <=? z)%float = true -> (z <=? x)%float = false.
Proof. rewrite ltb_spec, !leb_spec. apply SF_lt_le_not_le. Qed.

(** [x < y] excludes [y <= x]. *)
Lemma number_lt_not_le (x y : number) :
  (x <? y)%float = true -> (y <=? x)%float = false.
Proof. rewrite ltb_spec, leb_spec. apply SF_lt_not_le. Qed.

Lemma number_lt_le (x y : number) :
  (x <? y)%float = true -> (x <=? y)%float = true.
Proof. rewrite ltb_spec, leb_spec. apply SF_lt_le. Qed.



(** ** Compliance check *)

Lemma check_txn_spec (coa : list Account) (issues : list ComplianceIssue) (txn : Transaction) :
  check_txn (list_to_set (account_id <$> coa)) issues txn = issues ++ spec_txn_issues coa txn.
Proof.
  unfold check_txn, spec_txn_issues, missing_account.
  repeat case_bool_decide; repeat case_decide; simpl;
    rewrite ?elem_of_list_to_set in *; try tauto;
    rewrite ?app_nil_r, <- ?app_assoc; reflexivity.
Qed.

Lemma fold_check_txn (coa : list Account) (transactions : list Transaction)
    (issues : list ComplianceIssue) :
  fold_left (check_txn (list_to_set (account_id <$> coa))) transactions issues
  = issues ++ concat (spec_txn_issues coa <$> transactions).
Proof.
  revert issues. induction transactions as [|txn rest IH]; intros issues; simpl.
  - by rewrite app_nil_r.
  - by rewrite IH, check_txn_spec, app_assoc.
Qed.

(** C2. The issues returned are those of the transactions, one
    transaction after the other in input order; a transaction yields the
    debit issue when its debit account is missing and the credit issue when
    its credit account is missing, independently, every issue has severity
    High, two issues when both accounts are missing and never more than two. *)
Theorem checkCoaCompliance_issues (transactions : list Transaction) (coa : list Account) :
  checkCoaCompliance transactions coa = concat (spec_txn_issues coa <$> transactions)
  ∧ ∀ txn : Transaction,
      let debit_missing := missing_account coa (debit_account_id txn) in
      let credit_missing := missing_account coa (credit_account_id txn) in
      (debit_missing → credit_missing →
         spec_txn_issues coa txn = [debit_issue txn; credit_issue txn])
      ∧ (debit_missing → ¬ credit_missing → spec_txn_issues coa txn = [debit_issue txn])
      ∧ (¬ debit_missing → credit_missing → spec_txn_issues coa txn = [credit_issue txn])
      ∧ (¬ debit_missing → ¬ credit_missing → spec_txn_issues coa txn = [])
      ∧ (length (spec_txn_issues coa txn) ≤ 2)%nat
      ∧ Forall (λ i, severity i = High ∧ issue_transaction_id i = transaction_id txn)
          (spec_txn_issues coa txn)
      ∧ issue_type (debit_issue txn) = Invalid_Debit_Account
      ∧ issue_type (credit_issue txn) = Invalid_Credit_Account.
Proof.
  split.
  - unfold checkCoaCompliance. by rewrite fold_check_txn.
  - intros txn; simpl. unfold spec_txn_issues.
    repeat split; intros; repeat case_decide; simpl; try tauto; try lia;
      repeat constructor.
Qed.

(** The two issues planted in the sample journal, in journal order. *)
Example checkCoaCompliance_mock :
  checkCoaCompliance MOCK_TRANSACTIONS MOCK_COA
  = [ {| issue_transaction_id := "TXN-ERR-01"; issue_type := Invalid_Debit_Account;
         issue_description := "Debit Account ID 9999 not found in COA.";
         severity := High |};
      {| issue_transaction_id := "TXN-ERR-02"; issue_type := Invalid_Credit_Account;
         issue_description := "Credit Account ID 4005 not found in COA.";
         severity := High |} ].
Proof. by vm_compute. Qed.

(** A transaction with neither account in the chart: two issues. *)
Example checkCoaCompliance_both_missing :
  checkCoaCompliance
    [ {| transaction_id := "T"; transaction_date := "2024-05-02";
         debit_account_id := "9999"; credit_account_id := "8888"; amount := 1;
         reference_invoice_id := None; description := "" |} ] MOCK_COA
  = [ {| issue_transaction_id := "T"; issue_type := Invalid_Debit_Account;
         issue_description := "Debit Account ID 9999 not found in COA.";
         severity := High |};
      {| issue_transaction_id := "T"; issue_type := Invalid_Credit_Account;
         issue_description := "Credit Account ID 8888 not found in COA.";
         severity := High |} ].
Proof. by vm_compute. Qed.

(** ** Aging and allowance *)

Section AgingProperties.

Context `{DateHost}.

(** The bucket that results from accumulating the balances [xs] into [b]. *)
Lemma fold_accumulate (xs : list number) (b : AgingBucket) :
  fold_left (λ b x, accumulate x b) xs b
  = {| bucket := bucket b;
       total_amount := fold_left PrimFloat.add xs (total_amount b);
       invoice_count := length xs + invoice_count b;
       allowance_rate := allowance_rate b;
       estimated_allowance := estimated_allowance b |}.
Proof.
  revert b. induction xs as [|x xs IH]; intros b; simpl.
  - by destruct b.
  - rewrite IH. simpl. f_equal. lia.
Qed.

Lemma bucketIndex_lt (d : number) : (bucketIndex d < 5)%nat.
Proof. unfold bucketIndex. repeat case_match; lia. Qed.

(** Bucket [k] after the loop: the balances of its members, in order,
    accumulated into what it held before. *)
Lemma fold_add_invoice_lookup (REF_DATE : Date) (invoices : list Invoice)
    (buckets : list AgingBucket) (k : nat) :
  fold_left (add_invoice REF_DATE) invoices buckets !! k
  = (λ b, fold_left (λ b x, accumulate x b)
            (balance_due <$> members REF_DATE k invoices) b) <$> buckets !! k.
Proof.
  revert buckets. induction invoices as [|inv rest IH]; intros buckets; simpl.
  - by destruct (buckets !! k).
  - rewrite IH. unfold add_invoice at 1, members.
    destruct (balance_due inv <=? 0)%float eqn:Hskip.
    + rewrite filter_cons_False; [done|].
      unfold lands_in, counted. rewrite Hskip. intros [? _]; discriminate.
    + destruct (decide (bucketIndex (diffDays REF_DATE inv) = k)) as [<-|Hne].
      * rewrite list_lookup_alter_eq, filter_cons_True by done.
        by destruct (buckets !! _).
      * rewrite list_lookup_alter_ne, filter_cons_False; [done| |done].
        unfold lands_in. tauto.
Qed.

Lemma length_fold_add_invoice (REF_DATE : Date) (invoices : list Invoice)
    (buckets : list AgingBucket) :
  length (fold_left (add_invoice REF_DATE) invoices buckets) = length buckets.
Proof.
  revert buckets. induction invoices as [|inv rest IH]; intros buckets; simpl; [done|].
  rewrite IH. unfold add_invoice. case_match; [done|]. apply length_alter.
Qed.

Lemma calculateAllowance_lookup (invoices : list Invoice) (referenceDateStr : string)
    (k : nat) :
  calculateAllowance invoices referenceDateStr !! k
  = (λ b, spec_bucket (new_Date referenceDateStr) invoices k (bucket b) (allowance_rate b))
      <$> initial_buckets !! k.
Proof.
  unfold calculateAllowance.
  rewrite list_lookup_fmap, fold_add_invoice_lookup.
  destruct (initial_buckets !! k) as [b|] eqn:Hk; simpl; [|done].
  rewrite fold_accumulate. unfold set_allowance, spec_bucket, number_sum; simpl.
  assert (Hb : total_amount b = 0%float ∧ invoice_count b = 0%nat).
  { do 5 (destruct k as [|k]; [injection Hk as <-; done|]). done. }
  destruct Hb as [-> ->]. by rewrite length_fmap, Nat.add_0_r.
Qed.

Lemma calculateAllowance_closed (invoices : list Invoice) (referenceDateStr : string) :
  calculateAllowance invoices referenceDateStr
  = (λ '(k, l, rate), spec_bucket (new_Date referenceDateStr) invoices k l rate)
      <$> [ (0%nat, Current, 0.01%float);
            (1%nat, Days_1_30, 0.05%float);
            (2%nat, Days_31_60, 0.10%float);
            (3%nat, Days_61_90, 0.25%float);
            (4%nat, Days_90_plus, 0.50%float) ].
Proof.
  apply list_eq. intros k. rewrite calculateAllowance_lookup.
  do 5 (destruct k as [|k]; [done|]). done.
Qed.

Lemma bucketIndex_spec (age : number) : spec_bucket_of_age age (bucketIndex age).
Proof.
  unfold spec_bucket_of_age, bucketIndex. repeat split.
  - by intros ->.
  - intros H1 ->. by rewrite (number_lt_le_not_le 0 1 age).
  - intros H1 ->.
    by rewrite (number_lt_le_not_le 0 31 age), (number_lt_le_not_le 30 31 age).
  - intros H1 ->.
    by rewrite (number_lt_le_not_le 0 61 age), (number_lt_le_not_le 30 61 age),
         (number_lt_le_not_le 60 61 age).
  - intros H1. pose proof (number_lt_le _ _ H1) as H2.
    by rewrite (number_lt_le_not_le 0 90 age), (number_lt_le_not_le 30 90 age),
         (number_lt_le_not_le 60 90 age), (number_lt_not_le 90 age).
Qed.

(** The milliseconds of a day, as the source multiplies them out. *)
Lemma diffDays_unfold (REF_DATE : Date) (inv : Invoice) :
  diffDays REF_DATE inv
  = Math_ceil ((getTime REF_DATE - getTime (new_Date (due_date inv))) / of_Z msPerDay)%float.
Proof. reflexivity. Qed.

Lemma positive_balance_counted (inv : Invoice) :
  (0 <? balance_due inv)%float = true → counted inv.
Proof. apply number_lt_not_le. Qed.

(** The buckets partition the counted invoices. *)
Lemma members_partition (REF_DATE : Date) (invoices : list Invoice) :
  (length (members REF_DATE 0 invoices) + length (members REF_DATE 1 invoices)
   + length (members REF_DATE 2 invoices) + length (members REF_DATE 3 invoices)
   + length (members REF_DATE 4 invoices))%nat
  = length (filter counted invoices).
Proof.
  unfold members. induction invoices as [|inv rest IH]; [done|].
  rewrite !filter_cons. pose proof (bucketIndex_lt (diffDays REF_DATE inv)).
  unfold lands_in in *.
  repeat case_decide; simpl; try lia; exfalso;
    repeat match goal with H : ¬ (_ ∧ _) |- _ => apply not_and_l in H end;
    intuition lia.
Qed.

Lemma members_none (REF_DATE : Date) (k : nat) (invoices : list Invoice) :
  Forall (λ inv, ¬ lands_in REF_DATE k inv) invoices → members REF_DATE k invoices = [].
Proof.
  unfold members. induction 1 as [|inv rest Hinv _ IH]; [done|].
  by rewrite filter_cons_False.
Qed.

(** C1. The result is five buckets labelled Current, 1-30, 31-60, 61-90
    and 90+ in this order; the bucket at index [k] counts and totals the
    invoices that land in it; the counts add up to the number of invoices
    not skipped; and every invoice with [balance_due > 0] lands in exactly
    one bucket, fixed by its age [ceil((reference - due) / 1 day)] through
    the thresholds 0, 30, 60 and 90. *)
Theorem calculateAllowance_buckets (invoices : list Invoice) (referenceDateStr : string) :
  let REF_DATE := new_Date referenceDateStr in
  let result := calculateAllowance invoices referenceDateStr in
  bucket <$> result = [Current; Days_1_30; Days_31_60; Days_61_90; Days_90_plus]
  ∧ (∀ k b, result !! k = Some b →
       invoice_count b = length (members REF_DATE k invoices)
       ∧ total_amount b = number_sum (balance_due <$> members REF_DATE k invoices))
  ∧ sum_list (invoice_count <$> result) = length (filter counted invoices)
  ∧ ∀ inv, inv ∈ invoices → (0 <? balance_due inv)%float = true →
      let age :=
        Math_ceil ((getTime REF_DATE - getTime (new_Date (due_date inv)))
                   / of_Z msPerDay)%float in
      ∃ k, (k < 5)%nat
        ∧ inv ∈ members REF_DATE k invoices
        ∧ (∀ k', inv ∈ members REF_DATE k' invoices → k' = k)
        ∧ spec_bucket_of_age age k.
Proof.
  intros REF_DATE result. subst result.
  rewrite calculateAllowance_closed. fold REF_DATE.
  split; [done|]. split; [|split].
  - intros k b Hk.
    do 5 (destruct k as [|k]; [injection Hk as <-; done|]). done.
  - simpl. rewrite <- (members_partition REF_DATE). lia.
  - intros inv Hin Hpos.
    exists (bucketIndex (diffDays REF_DATE inv)).
    pose proof (positive_balance_counted inv Hpos) as Hc.
    split; [apply bucketIndex_lt|]. split; [|split].
    + apply list_elem_of_filter. by split.
    + intros k' [[_ Hk'] _]%list_elem_of_filter. done.
    + rewrite <- diffDays_unfold. apply bucketIndex_spec.
Qed.

(** C3. The allowance is not touched while the totals accumulate; it is
    set in one pass over the finished totals, to the product of the
    bucket's total and its rate, and the rates are 1%, 5%, 10%, 25% and
    50% in bucket order. *)
Theorem calculateAllowance_allowance (invoices : list Invoice) (referenceDateStr : string) :
  let REF_DATE := new_Date referenceDateStr in
  let totals := fold_left (add_invoice REF_DATE) invoices initial_buckets in
  let result := calculateAllowance invoices referenceDateStr in
  result = set_allowance <$> totals
  ∧ Forall (λ b, estimated_allowance b = 0%float) totals
  ∧ total_amount <$> result = total_amount <$> totals
  ∧ allowance_rate <$> result = [0.01; 0.05; 0.10; 0.25; 0.50]%float
  ∧ Forall (λ b, estimated_allowance b = (total_amount b * allowance_rate b)%float) result
  ∧ ∀ k b, result !! k = Some b →
      total_amount b = number_sum (balance_due <$> members REF_DATE k invoices)
      ∧ Some (allowance_rate b) = rate_at k
      ∧ estimated_allowance b
        = (number_sum (balance_due <$> members REF_DATE k invoices) * allowance_rate b)%float.
Proof.
  intros REF_DATE totals result.
  assert (Hres : result = set_allowance <$> totals) by done.
  split; [done|]. split; [|split; [|split; [|split]]].
  - apply Forall_lookup. intros k b Hk. subst totals.
    rewrite fold_add_invoice_lookup in Hk.
    destruct (initial_buckets !! k) as [b0|] eqn:Hk0; simpl in Hk; [|done].
    injection Hk as <-. rewrite fold_accumulate. simpl.
    do 5 (destruct k as [|k]; [injection Hk0 as <-; done|]). done.
  - rewrite Hres, <- list_fmap_compose. by apply list_fmap_ext.
  - subst result. by rewrite calculateAllowance_closed.
  - rewrite Hres. apply Forall_fmap, Forall_true. done.
  - intros k b Hk. subst result. rewrite calculateAllowance_closed in Hk.
    fold REF_DATE in Hk.
    do 5 (destruct k as [|k]; [injection Hk as <-; done|]). done.
Qed.

(** C4. An invoice with [balance_due <= 0] leaves no trace: the result
    is the same with it and without it, wherever it stands in the list and
    whatever the reference date. *)
Theorem calculateAllowance_skips_nonpositive (before after : list Invoice) (inv : Invoice)
    (referenceDateStr : string) :
  (balance_due inv <=? 0)%float = true →
  calculateAllowance (before ++ inv :: after) referenceDateStr
  = calculateAllowance (before ++ after) referenceDateStr.
Proof.
  intros Hskip. unfold calculateAllowance.
  rewrite !fold_left_app. simpl. unfold add_invoice at 2. by rewrite Hskip.
Qed.

(** C8. With the reference date 2024-07-01, an invoice due 2024-03-31
    is 92 days old and belongs to the bucket 90+ Days; an invoice due
    2024-05-31 is 31 days old and belongs to the bucket 31-60 Days, and
    when its balance is 5000 and no other invoice lands in that bucket, the
    bucket totals 5000 with an allowance of 500. *)
Theorem aging_scenarios (before after : list Invoice) (inv92 inv31 : Invoice) :
  let REF_DATE := new_Date "2024-07-01" in
  due_date inv92 = "2024-03-31" →
  due_date inv31 = "2024-05-31" →
  balance_due inv31 = 5000%float →
  Forall (λ other, ¬ lands_in REF_DATE 2 other) (before ++ after) →
  diffDays REF_DATE inv92 = 92%float
  ∧ bucketIndex (diffDays REF_DATE inv92) = 4%nat
  ∧ ((0 <? balance_due inv92)%float = true → lands_in REF_DATE 4 inv92)
  ∧ label_text <$> label_at 4 = Some "90+ Days"
  ∧ diffDays REF_DATE inv31 = 31%float
  ∧ lands_in REF_DATE 2 inv31
  ∧ label_text <$> label_at 2 = Some "31-60 Days"
  ∧ ∃ b, calculateAllowance (before ++ inv31 :: after) "2024-07-01" !! 2%nat = Some b
      ∧ bucket b = Days_31_60
      ∧ invoice_count b = 1%nat
      ∧ total_amount b = 5000%float
      ∧ estimated_allowance b = 500%float.
Proof.
  intros REF_DATE Hdue92 Hdue31 Hbal Hothers.
  assert (H92 : diffDays REF_DATE inv92 = 92%float).
  { unfold diffDays. rewrite Hdue92. by vm_compute. }
  assert (H31 : diffDays REF_DATE inv31 = 31%float).
  { unfold diffDays. rewrite Hdue31. by vm_compute. }
  assert (Hl31 : lands_in REF_DATE 2 inv31).
  { unfold lands_in, counted. by rewrite H31, Hbal. }
  split; [done|]. split; [by rewrite H92|].
  split; [intros Hpos; split; [by apply positive_balance_counted | by rewrite H92]|].
  split; [done|]. split; [done|]. split; [done|]. split; [done|].
  rewrite calculateAllowance_closed. fold REF_DATE. simpl.
  eexists. split; [reflexivity|]. unfold spec_bucket, members; simpl.
  apply Forall_app in Hothers as [Hb Ha].
  rewrite filter_app, filter_cons_True by done.
  fold (members REF_DATE 2 before). fold (members REF_DATE 2 after).
  rewrite !members_none by done. simpl. rewrite Hbal. by vm_compute.
Qed.

End AgingProperties.

(** The aging of the sample data at the default reference date. *)
Example calculateAllowance_mock :
  @calculateAllowance strict_host MOCK_INVOICES default_referenceDateStr
  = [ {| bucket := Current; total_amount := 0; invoice_count := 0;
         allowance_rate := 0.01; estimated_allowance := 0 |};
      {| bucket := Days_1_30; total_amount := 0; invoice_count := 0;
         allowance_rate := 0.05; estimated_allowance := 0 |};
      {| bucket := Days_31_60; total_amount := 5000; invoice_count := 1;
         allowance_rate := 0.10; estimated_allowance := 500 |};
      {| bucket := Days_61_90; total_amount := 0; invoice_count := 0;
         allowance_rate := 0.25; estimated_allowance := 0 |};
      {| bucket := Days_90_plus; total_amount := 18500; invoice_count := 2;
         allowance_rate := 0.50; estimated_allowance := 9250 |} ].
Proof. by vm_compute. Qed.

Lemma calculateAllowance_skips_nonpositive_witness :
  (balance_due INV_0800 <=? 0)%float = true
  ∧ @calculateAllowance strict_host ([INV_1001; INV_0900] ++ INV_0800 :: [INV_0850])
      default_referenceDateStr
    = @calculateAllowance strict_host ([INV_1001; INV_0900] ++ [INV_0850])
        default_referenceDateStr.
Proof.
  split; [reflexivity|].
  apply (@calculateAllowance_skips_nonpositive strict_host). reflexivity.
Defined.

Lemma aging_scenarios_witness :
  let REF_DATE := @new_Date strict_host "2024-07-01" in
  @diffDays strict_host REF_DATE INV_0900 = 92%float
  ∧ @diffDays strict_host REF_DATE INV_1001 = 31%float
  ∧ ∃ b, @calculateAllowance strict_host ([INV_0900] ++ INV_1001 :: [INV_0800])
           "2024-07-01" !! 2%nat = Some b
      ∧ total_amount b = 5000%float ∧ estimated_allowance b = 500%float.
Proof.
  intros REF_DATE.
  destruct (@aging_scenarios strict_host [INV_0900] [INV_0800] INV_0900 INV_1001)
    as (H92 & _ & _ & _ & H31 & _ & _ & b & Hb & _ & _ & Ht & He).
  - reflexivity.
  - reflexivity.
  - reflexivity.
  - repeat constructor; intros [Hc Hk]; vm_compute in Hc, Hk; discriminate.
  - split; [exact H92|]. split; [exact H31|]. exists b. auto.
Defined.

(** ** Strings *)

Lemma append_empty_r (s : string) : (s ++ EmptyString)%string = s.
Proof. induction s as [|c s IH]; [done|]. change (String c (s ++ "") = String c s). by rewrite IH. Qed.

Lemma append_snoc (s : string) (c : ascii) (t : string) :
  ((s ++ String c EmptyString) ++ t)%string = (s ++ String c t)%string.
Proof.
  induction s as [|a s IH]; [done|].
  change (String a ((s ++ String c "") ++ t) = String a (s ++ String c t)). by rewrite IH.
Qed.

Lemma ascii_eqb_eq (a b : ascii) : ascii_eqb a b = true ↔ a = b.
Proof. apply Ascii.eqb_eq. Qed.

Lemma ascii_eqb_refl (a : ascii) : ascii_eqb a a = true.
Proof. by apply ascii_eqb_eq. Qed.

Lemma trimStart_no_space (s : string) :
  match trimStart s with
  | String c _ => is_white_space c = false
  | EmptyString => True
  end.
Proof.
  induction s as [|a s IH]; simpl; [done|].
  destruct (is_white_space a) eqn:Ha; [done|]. by simpl.
Qed.

Lemma trimStart_id (c : ascii) (s : string) :
  is_white_space c = false → trimStart (String c s) = String c s.
Proof. intros Hc. simpl. by rewrite Hc. Qed.

Lemma trimEnd_idemp (s : string) : trimEnd (trimEnd s) = trimEnd s.
Proof.
  induction s as [|a s IH]; simpl; [done|].
  destruct (trimEnd s) as [|b r] eqn:Hs.
  - destruct (is_white_space a) eqn:Ha; simpl; [done|]. by rewrite Ha.
  - simpl. simpl in IH. by rewrite IH.
Qed.

Lemma trimEnd_head (c : ascii) (s : string) :
  is_white_space c = false → ∃ r, trimEnd (String c s) = String c r.
Proof. intros Hc. simpl. destruct (trimEnd s); rewrite ?Hc; eauto. Qed.

(** A trimmed string is left alone by [trim]. *)
Lemma trim_idemp (s : string) : trim (trim s) = trim s.
Proof.
  unfold trim. pose proof (trimStart_no_space s) as Hs.
  destruct (trimStart s) as [|c t]; [done|].
  destruct (trimEnd_head c t Hs) as [r Hr].
  rewrite Hr, trimStart_id by done. rewrite <- Hr. apply trimEnd_idemp.
Qed.

Lemma contains_trimStart (c : ascii) (s : string) :
  is_white_space c = false → contains c (trimStart s) = contains c s.
Proof.
  intros Hc. induction s as [|a s IH]; simpl; [done|].
  destruct (is_white_space a) eqn:Ha; [|done].
  rewrite IH. destruct (ascii_eqb a c) eqn:Hac; [|done].
  apply ascii_eqb_eq in Hac. congruence.
Qed.

Lemma contains_trimEnd (c : ascii) (s : string) :
  is_white_space c = false → contains c (trimEnd s) = contains c s.
Proof.
  intros Hc. induction s as [|a s IH]; simpl; [done|].
  destruct (trimEnd s) as [|b r] eqn:Hs.
  - rewrite <- IH. simpl. destruct (is_white_space a) eqn:Ha; simpl; [|done].
    destruct (ascii_eqb a c) eqn:Hac; [|done].
    apply ascii_eqb_eq in Hac. congruence.
  - by rewrite <- IH.
Qed.

Lemma contains_trim (c : ascii) (s : string) :
  is_white_space c = false → contains c (trim s) = contains c s.
Proof. intros Hc. unfold trim. by rewrite contains_trimEnd, contains_trimStart. Qed.

Lemma includes_elem_of (xs : list string) (x : string) : includes xs x = true ↔ x ∈ xs.
Proof.
  unfold includes. rewrite existsb_exists, list_elem_of_In. split.
  - by intros (y & Hy & ->%String.eqb_eq).
  - intros Hx. exists x. by rewrite String.eqb_refl.
Qed.




(** ** CSV line parser *)

Lemma contains_remove_quotes (s : string) : contains dquote (remove_quotes s) = false.
Proof.
  induction s as [|c s IH]; simpl; [done|].
  destruct (ascii_eqb c dquote) eqn:Hc; [done|]. simpl. by rewrite Hc.
Qed.

Lemma remove_quotes_id (s : string) : contains dquote s = false → remove_quotes s = s.
Proof.
  induction s as [|c s IH]; simpl; [done|].
  intros [Hc Hs]%orb_false_elim. by rewrite Hc, IH.
Qed.

Lemma spec_split_fields_cons (line : string) (inQuote : bool) :
  ∃ piece pieces, spec_split_fields line inQuote = piece :: pieces.
Proof.
  revert inQuote. induction line as [|c r IH]; intros inQuote; simpl; [eauto|].
  destruct (ascii_eqb c dquote).
  - destruct (IH (negb inQuote)) as (p & ps & ->). simpl; eauto.
  - destruct (ascii_eqb c "," && negb inQuote); [eauto|].
    destruct (IH inQuote) as (p & ps & ->). simpl; eauto.
Qed.

(** The pieces put back together with commas are the line. *)
Lemma join_spec_split_fields (line : string) (inQuote : bool) :
  join "," (spec_split_fields line inQuote) = line.
Proof.
  revert inQuote. induction line as [|c r IH]; intros inQuote; simpl; [done|].
  destruct (ascii_eqb c dquote) eqn:Hq.
  - specialize (IH (negb inQuote)).
    destruct (spec_split_fields_cons r (negb inQuote)) as (p & ps & Hp).
    rewrite Hp in *. simpl. destruct ps; simpl in *; by rewrite <- IH.
  - destruct (ascii_eqb c "," && negb inQuote) eqn:Hc.
    + apply andb_true_iff in Hc as [->%ascii_eqb_eq _].
      specialize (IH inQuote).
      destruct (spec_split_fields_cons r inQuote) as (p & ps & Hp).
      rewrite Hp in *. by rewrite <- IH.
    + specialize (IH inQuote).
      destruct (spec_split_fields_cons r inQuote) as (p & ps & Hp).
      rewrite Hp in *. simpl. destruct ps; simpl in *; by rewrite <- IH.
Qed.

(** The scan, from any state of its three variables. *)
Lemma parseCSVLine_loop_spec (line : string) (values : list string) (inQuote : bool)
    (currentValue : string) :
  parseCSVLine_loop line values inQuote currentValue
  = values ++
    match spec_split_fields line inQuote with
    | piece :: pieces =>
        trim (currentValue ++ remove_quotes piece) :: (spec_value <$> pieces)
    | [] => []
    end.
Proof.
  revert values inQuote currentValue.
  induction line as [|c r IH]; intros values inQuote cur; simpl.
  - by rewrite append_empty_r.
  - destruct (ascii_eqb c dquote) eqn:Hq.
    + rewrite IH. destruct (spec_split_fields_cons r (negb inQuote)) as (p & ps & ->).
      simpl. by rewrite Hq.
    + destruct (ascii_eqb c "," && negb inQuote) eqn:Hc.
      * rewrite IH. destruct (spec_split_fields_cons r inQuote) as (p & ps & ->).
        simpl. rewrite append_empty_r, <- app_assoc. done.
      * rewrite IH. destruct (spec_split_fields_cons r inQuote) as (p & ps & ->).
        simpl. by rewrite Hq, append_snoc.
Qed.

(** A stretch without double quotes, read in quoted mode, goes whole into
    the current value. *)
Lemma parseCSVLine_loop_quoted (s rest : string) (values : list string)
    (currentValue : string) :
  contains dquote s = false →
  parseCSVLine_loop (s ++ rest) values true currentValue
  = parseCSVLine_loop rest values true (currentValue ++ s).
Proof.
  revert currentValue. induction s as [|c s IH]; intros cur Hs.
  - by rewrite append_empty_r.
  - simpl in Hs. apply orb_false_elim in Hs as [Hc Hs].
    change (String c s ++ rest)%string with (String c (s ++ rest)). simpl.
    rewrite Hc, andb_false_r, IH by done. by rewrite append_snoc.
Qed.

(** The scan computes the values of the pieces. *)
Lemma parseCSVLine_spec (line : string) :
  parseCSVLine line = spec_value <$> spec_split_fields line false.
Proof.
  unfold parseCSVLine. rewrite parseCSVLine_loop_spec.
  by destruct (spec_split_fields_cons line false) as (p & ps & ->).
Qed.

(** A value holds no double quote and is trimmed. *)
Lemma parseCSVLine_clean (line : string) :
  Forall (λ v, contains dquote v = false ∧ trim v = v) (parseCSVLine line).
Proof.
  rewrite parseCSVLine_spec. apply Forall_fmap, Forall_true.
  intros piece. unfold spec_value; simpl. split; [|apply trim_idemp].
  by rewrite contains_trim, contains_remove_quotes.
Qed.

(** C6. The values of a line are the pieces between the commas that
    stand outside quoted spans, each with its double quotes left out and
    then trimmed; no value holds a double quote and every value is
    trimmed; a quoted field is one value whatever commas it holds, and a
    line with the quoted field Acme, Inc yields that one value. *)
Theorem parseCSVLine_fields (line : string) :
  parseCSVLine line = spec_value <$> spec_split_fields line false
  ∧ join "," (spec_split_fields line false) = line
  ∧ Forall (λ v, contains dquote v = false ∧ trim v = v) (parseCSVLine line)
  ∧ (∀ s, contains dquote s = false → parseCSVLine (quoted s) = [trim s])
  ∧ parseCSVLine ("1001," ++ quoted "Acme, Inc" ++ ", 42 ") = ["1001"; "Acme, Inc"; "42"].
Proof.
  split; [apply parseCSVLine_spec|]. split; [apply join_spec_split_fields|].
  split; [apply parseCSVLine_clean|]. split.
  - intros s Hs. unfold parseCSVLine, quoted. simpl.
    rewrite parseCSVLine_loop_quoted by done. done.
  - by vm_compute.
Qed.

(** ** CSV rows and field coercion *)









(** The row of that line has the two other fields only. *)
Example proto_header_row :
  dom (parse_row ["account_id"; "__proto__"; "account_type"] "1100,Cash,Asset")
  = ({["account_id"; "account_type"]} : gset string).
Proof. by vm_compute. Qed.

(** A row of a small customer file, field by field. *)
Example parse_row_fields :
  let row := parse_row ["customer_id"; "name"; "risk_score_history"; "amount"; "email"]
               ("C1," ++ quoted "Acme, Inc" ++ ",10;;abc;2.5") in
  row !! "customer_id" = Some (Str "C1")
  ∧ row !! "name" = Some (Str "Acme, Inc")
  ∧ row !! "risk_score_history" = Some (Arr [10; 0; 0; 2.5]%float)
  ∧ row !! "amount" = Some (Num 0)
  ∧ row !! "email" = Some Undefined.
Proof. by vm_compute. Qed.

(** The invoice of the invoices template, read from CSV: the amounts are
    numbers. *)
Example parse_row_template_invoice :
  let row := parse_row
    ["invoice_id"; "customer_id"; "invoice_date"; "due_date"; "original_amount";
     "amount_paid"; "balance_due"; "status"]
    "INV-1001,CUST-001,2024-05-01,2024-05-31,5000,0,5000,Open" in
  row !! "due_date" = Some (Str "2024-05-31")
  ∧ row !! "original_amount" = Some (Num 5000)
  ∧ row !! "amount_paid" = Some (Num 0)
  ∧ row !! "balance_due" = Some (Num 5000).
Proof. by vm_compute. Qed.

(** The round trip of the chart-of-accounts template: one account
    record with the three fields of its data line. *)
Example parseCSVData_template_coa :
  headers (parseCSVData template_coa) = ["account_id"; "account_name"; "account_type"]
  ∧ (λ row : Row, (row !! "account_id", row !! "account_name", row !! "account_type"))
      <$> data (parseCSVData template_coa)
    = [ (Some (Str "1100"), Some (Str "Cash"), Some (Str "Asset")) ]
  ∧ detect (headers (parseCSVData template_coa)) = Some CsvCoa.
Proof. by vm_compute. Qed.

(** ** Type detection *)

Lemma includes_both (hs : list string) (a b : string) :
  includes hs a && includes hs b = true ↔ has_both hs a b.
Proof. unfold has_both. by rewrite andb_true_iff, !includes_elem_of. Qed.

Lemma includes_both_false (hs : list string) (a b : string) :
  includes hs a && includes hs b = false ↔ ¬ has_both hs a b.
Proof. rewrite <- includes_both. by destruct (includes hs a && includes hs b). Qed.

(** What the chain of tests returns, signature by signature. *)
Lemma detect_spec (hs : list string) :
  (detect hs = Some CsvCoa ↔ sig_accounts hs)
  ∧ (detect hs = Some CsvCustomers ↔ sig_customers hs ∧ ¬ sig_accounts hs)
  ∧ (detect hs = Some CsvInvoices ↔
       sig_invoices hs ∧ ¬ sig_accounts hs ∧ ¬ sig_customers hs)
  ∧ (detect hs = Some CsvTransactions ↔
       sig_transactions hs ∧ ¬ sig_accounts hs ∧ ¬ sig_customers hs ∧ ¬ sig_invoices hs)
  ∧ (detect hs = None ↔
       ¬ sig_accounts hs ∧ ¬ sig_customers hs ∧ ¬ sig_invoices hs ∧ ¬ sig_transactions hs).
Proof.
  unfold detect, sig_accounts, sig_customers, sig_invoices, sig_transactions.
  destruct (includes hs "account_id" && includes hs "account_type") eqn:Ha;
    [apply includes_both in Ha | apply includes_both_false in Ha];
  (destruct (includes hs "customer_id" && includes hs "risk_score_history") eqn:Hc;
    [apply includes_both in Hc | apply includes_both_false in Hc]);
  (destruct (includes hs "invoice_id" && includes hs "balance_due") eqn:Hi;
    [apply includes_both in Hi | apply includes_both_false in Hi]);
  (destruct (includes hs "transaction_id" && includes hs "debit_account_id") eqn:Ht;
    [apply includes_both in Ht | apply includes_both_false in Ht]);
  intuition congruence.
Qed.

(** What [load_csv] does for each outcome of the detection. *)
Lemma load_csv_kind (content : string) (st : AppState) (loadedInfo : list string) :
  let parsed := parseCSVData content in
  load_csv content (st, loadedInfo)
  = match detect (headers parsed) with
    | Some CsvCoa => (setCoa (data parsed) st, loadedInfo ++ ["COA (CSV)"])
    | Some CsvCustomers => (setCustomers (data parsed) st, loadedInfo ++ ["Customers (CSV)"])
    | Some CsvInvoices => (setInvoices (data parsed) st, loadedInfo ++ ["Invoices (CSV)"])
    | Some CsvTransactions =>
        (setTransactions (data parsed) st, loadedInfo ++ ["Transactions (CSV)"])
    | None => (st, loadedInfo)
    end.
Proof. reflexivity. Qed.

(** C10. A CSV file is classified by the first signature its headers
    satisfy in the order Accounts, Customers, Invoices, Transactions,
    whatever later signatures they satisfy as well, and the file replaces
    the primary set of that kind and no other. *)
Theorem detect_precedence (content : string) (st : AppState) (loadedInfo : list string) :
  let parsed := parseCSVData content in
  let hs := headers parsed in
  let st' := (load_csv content (st, loadedInfo)).1 in
  (sig_accounts hs → detect hs = Some CsvCoa ∧ st' = setCoa (data parsed) st)
  ∧ (¬ sig_accounts hs → sig_customers hs →
       detect hs = Some CsvCustomers ∧ st' = setCustomers (data parsed) st)
  ∧ (¬ sig_accounts hs → ¬ sig_customers hs → sig_invoices hs →
       detect hs = Some CsvInvoices ∧ st' = setInvoices (data parsed) st)
  ∧ (¬ sig_accounts hs → ¬ sig_customers hs → ¬ sig_invoices hs → sig_transactions hs →
       detect hs = Some CsvTransactions ∧ st' = setTransactions (data parsed) st)
  ∧ (¬ sig_accounts hs → ¬ sig_customers hs → ¬ sig_invoices hs → ¬ sig_transactions hs →
       detect hs = None ∧ st' = st)
  ∧ ∃ k, keeps_all_but k st st'.
Proof.
  intros parsed hs st'. subst st'. rewrite load_csv_kind. fold parsed. fold hs.
  destruct (detect_spec hs) as (Ha & Hc & Hi & Ht & Hn).
  destruct (detect hs) as [[]|] eqn:Hd; simpl;
    (do 5 (split; [intuition congruence|])).
  - by exists CsvCoa.
  - by exists CsvCustomers.
  - by exists CsvInvoices.
  - by exists CsvTransactions.
  - by exists CsvCoa.
Qed.

(** The file with two signatures replaces the chart of accounts and
    leaves the customers alone. *)
Example both_signatures_load :
  load_csv both_signatures (empty_state, [])
  = (setCoa (data (parseCSVData both_signatures)) empty_state, ["COA (CSV)"])
  ∧ customers (load_csv both_signatures (empty_state, [])).1 = [].
Proof. by vm_compute. Qed.

(** ** Short payloads *)

Lemma length_filter_weaken {A} (P Q : A → Prop) `{!∀ x, Decision (P x)}
    `{!∀ x, Decision (Q x)} (l : list A) :
  (∀ x, P x → Q x) → (length (filter P l) ≤ length (filter Q l))%nat.
Proof.
  intros HPQ. induction l as [|x l IH]; [done|].
  rewrite !filter_cons. destruct (decide (P x)) as [HP|HP].
  - rewrite decide_True by auto. simpl. lia.
  - destruct (decide (Q x)); simpl; lia.
Qed.

(** Fewer than two lines that are not blank: nothing is parsed. *)
Lemma parseCSVData_blank (content : string) :
  (length (filter (λ l, trim l ≠ EmptyString) (split_lines content)) < 2)%nat →
  parseCSVData content = {| headers := []; data := [] |}.
Proof.
  intros Hlen. unfold parseCSVData.
  apply Nat.ltb_lt in Hlen. by rewrite Hlen.
Qed.

Section UploadProperties.

Context `{JsonHost}.

Lemma load_csv_unrecognized (content : string) (p : Progress) :
  detect (headers (parseCSVData content)) = None → load_csv content p = p.
Proof. intros Hd. destruct p as [st info]. by rewrite load_csv_kind, Hd. Qed.

(** A file that is not JSON and whose text is taken for no dataset
    leaves the data and [loadedInfo] as they were. *)
Lemma process_file_other (p : Progress) (file : File) :
  endsWith (name file) ".json" = false →
  detect (headers (parseCSVData (text file))) = None →
  process_file p file = p.
Proof.
  intros Hjson Hd. unfold process_file. rewrite Hjson.
  destruct (endsWith (name file) ".csv"); [|done].
  by apply load_csv_unrecognized.
Qed.

(** C9. A payload with fewer than two non-empty lines parses to no
    headers and no records, is taken for no dataset, and loading it changes
    nothing: alone in a batch it ends in the message for unrecognized data
    with the state as it was. *)
Theorem parseCSVData_too_short (content : string) :
  (length (filter (λ l, l ≠ EmptyString) (split_lines content)) < 2)%nat →
  parseCSVData content = {| headers := []; data := [] |}
  ∧ detect (headers (parseCSVData content)) = None
  ∧ (∀ p, load_csv content p = p)
  ∧ (∀ file_name st,
       endsWith file_name ".json" = false →
       handleFileUpload [{| name := file_name; text := content |}] st
       = (st, Some nothing_recognized)).
Proof.
  intros Hlen.
  assert (Hp : parseCSVData content = {| headers := []; data := [] |}).
  { apply parseCSVData_blank.
    eapply Nat.le_lt_trans; [|exact Hlen].
    apply length_filter_weaken. intros l Hl ->. by apply Hl. }
  assert (Hd : detect (headers (parseCSVData content)) = None) by by rewrite Hp.
  split; [done|]. split; [done|]. split.
  - intros p. by apply load_csv_unrecognized.
  - intros file_name st Hjson. unfold handleFileUpload. cbn [fold_left].
    by rewrite process_file_other.
Qed.

End UploadProperties.

Lemma parseCSVData_too_short_witness :
  detect (parse_header <$> split "," header_only) = Some CsvCoa
  ∧ parseCSVData header_only = {| headers := []; data := [] |}
  ∧ @handleFileUpload no_json [{| name := "coa.csv"; text := header_only |}] empty_state
    = (empty_state, Some nothing_recognized).
Proof.
  split; [by vm_compute|].
  destruct (@parseCSVData_too_short no_json header_only) as (Hp & _ & _ & Hu).
  - vm_compute. lia.
  - split; [exact Hp|]. by apply Hu.
Defined.

(** ** Batches *)

Section BatchProperties.

Context `{JsonHost}.

Lemma load_key_tags (key : option (list Row)) (set : list Row → AppState → AppState)
    (tag : string) (p : Progress) :
  (load_key key set tag p).2 = p.2 ++ key_tag key tag
  ∧ (key = None → load_key key set tag p = p).
Proof. destruct key; simpl; [done|]. by rewrite app_nil_r. Qed.

Lemma load_json_tags (json : JsonDoc) (p : Progress) :
  (load_json json p).2 = p.2 ++ json_tags json
  ∧ (json_tags json = [] → load_json json p = p).
Proof.
  unfold load_json, json_tags.
  destruct json as [[t|] [i|] [c|] [a|]]; simpl; rewrite <- ?app_assoc, ?app_nil_r;
    split; try done; by destruct p.
Qed.

Lemma process_file_tags (p : Progress) (file : File) :
  (process_file p file).2 = p.2 ++ file_tags file
  ∧ (file_tags file = [] → process_file p file = p).
Proof.
  unfold process_file, file_tags.
  destruct (endsWith (name file) ".json").
  { destruct (JSON_parse (text file)) as [json|]; [apply load_json_tags|].
    by rewrite app_nil_r. }
  destruct (endsWith (name file) ".csv"); [|by rewrite app_nil_r].
  destruct p as [st info]. rewrite load_csv_kind.
  destruct (detect _) as [[]|]; simpl; by rewrite ?app_nil_r.
Qed.

Lemma fold_process_file_tags (files : list File) (p : Progress) :
  (fold_left process_file files p).2 = p.2 ++ concat (file_tags <$> files).
Proof.
  revert p. induction files as [|f files IH]; intros p; simpl.
  - by rewrite app_nil_r.
  - rewrite IH, (proj1 (process_file_tags p f)). by rewrite app_assoc.
Qed.

Lemma fold_process_file_unrecognized (files : list File) (p : Progress) :
  Forall (λ f, ¬ recognized f) files → fold_left process_file files p = p.
Proof.
  induction 1 as [|f files Hf _ IH]; simpl; [done|].
  rewrite (proj2 (process_file_tags p f)); [done|].
  unfold recognized in Hf. destruct (file_tags f) as [|t ts]; [done|].
  exfalso. by apply Hf.
Qed.

(** C5, with the precedence of the tests. The headers of a payload are
    taken for Accounts exactly when they include [account_id] and
    [account_type]; for Customers exactly when they include [customer_id]
    and [risk_score_history] and are not taken for Accounts; for Invoices
    exactly when they include [invoice_id] and [balance_due] and neither
    earlier signature holds; for Transactions exactly when they include
    [transaction_id] and [debit_account_id] and no earlier signature holds.
    When no signature holds the file changes nothing. A batch with at least
    one file and no recognized file leaves the state as it was and alerts
    the message for unrecognized data, which no batch with a recognized
    file alerts; an empty list of files returns at once, with no alert. *)
Theorem csv_detection (content : string) :
  let parsed := parseCSVData content in
  let hs := headers parsed in
  (detect hs = Some CsvCoa ↔ sig_accounts hs)
  ∧ (detect hs = Some CsvCustomers ↔ sig_customers hs ∧ ¬ sig_accounts hs)
  ∧ (detect hs = Some CsvInvoices ↔
       sig_invoices hs ∧ ¬ sig_accounts hs ∧ ¬ sig_customers hs)
  ∧ (detect hs = Some CsvTransactions ↔
       sig_transactions hs ∧ ¬ sig_accounts hs ∧ ¬ sig_customers hs ∧ ¬ sig_invoices hs)
  ∧ (∀ st loadedInfo,
       load_csv content (st, loadedInfo)
       = match detect hs with
         | Some CsvCoa => (setCoa (data parsed) st, loadedInfo ++ ["COA (CSV)"])
         | Some CsvCustomers =>
             (setCustomers (data parsed) st, loadedInfo ++ ["Customers (CSV)"])
         | Some CsvInvoices =>
             (setInvoices (data parsed) st, loadedInfo ++ ["Invoices (CSV)"])
         | Some CsvTransactions =>
             (setTransactions (data parsed) st, loadedInfo ++ ["Transactions (CSV)"])
         | None => (st, loadedInfo)
         end)
  ∧ (¬ sig_accounts hs → ¬ sig_customers hs → ¬ sig_invoices hs → ¬ sig_transactions hs →
       detect hs = None ∧ ∀ p, load_csv content p = p)
  ∧ (∀ files st, files ≠ [] → Forall (λ f, ¬ recognized f) files →
       handleFileUpload files st = (st, Some nothing_recognized))
  ∧ (∀ st, handleFileUpload [] st = (st, None))
  ∧ (∀ files st, Exists recognized files →
       ∃ loadedInfo, loadedInfo ≠ []
         ∧ (handleFileUpload files st).2
           = Some ("Successfully loaded: " ++ join ", " loadedInfo)%string)
  ∧ (∀ loadedInfo,
       nothing_recognized ≠ ("Successfully loaded: " ++ join ", " loadedInfo)%string).
Proof.
  intros parsed hs.
  destruct (detect_spec hs) as (Ha & Hc & Hi & Ht & Hn).
  do 4 (split; [done|]). split; [intros; apply load_csv_kind|].
  split; [|split; [|split; [done|split]]].
  - intros. assert (Hd : detect hs = None) by tauto.
    split; [done|]. intros p. by apply load_csv_unrecognized.
  - intros files st Hne Hall. unfold handleFileUpload.
    destruct files as [|f files]; [done|].
    by rewrite fold_process_file_unrecognized.
  - intros files st Hex. unfold handleFileUpload.
    destruct files as [|f files]; [by apply Exists_nil in Hex|].
    pose proof (fold_process_file_tags (f :: files) (st, [])) as Htags.
    destruct (fold_left process_file (f :: files) (st, [])) as [st' info].
    cbn [snd app] in Htags.
    assert (Hinfo : info ≠ []).
    { rewrite Htags. clear -Hex. induction Hex as [g gs Hg|g gs _ IH]; simpl.
      - unfold recognized in Hg. by destruct (file_tags g).
      - intros [_ Hgs]%app_eq_nil. by apply IH. }
    exists info. split; [done|]. by destruct info.
  - intros info. unfold nothing_recognized.
    change ("Successfully loaded: " ++ join ", " info)%string
      with (String "S" ("uccessfully loaded: " ++ join ", " info)).
    discriminate.
Qed.

End BatchProperties.

(** The Customers signature is present but the file is taken for
    Accounts: the Customers signature alone does not decide. *)
Lemma customers_signature_not_sufficient :
  ¬ (detect (headers (parseCSVData both_signatures)) = Some CsvCustomers
     ↔ sig_customers (headers (parseCSVData both_signatures))).
Proof.
  intros [_ Hc].
  assert (Hs : sig_customers (headers (parseCSVData both_signatures))).
  { split; apply includes_elem_of; by vm_compute. }
  apply Hc in Hs. vm_compute in Hs. discriminate Hs.
Qed.
